(** * Personal income tax calculator of TaxfixNG

    Shallow embedding of [compute_tax_liability] and of the [estimate_tax]
    endpoint (with its local [progressive_tax] helper) from
    [app/features/profile/profile_router.py], and of the [Forecast] request
    schema from [app/features/profile/profile_schema.py].

    Monetary amounts are Python floats in the source; they are modelled here as
    exact rationals [Q], so that the arithmetic is the one the code writes
    ([+], [-], [*], [/], [min], [max], comparisons) without rounding. Equality
    of amounts is the rational equality [==]. *)

From Stdlib Require Import QArith Qminmax Lqa List String Ascii ZArith Lia.
Import ListNotations.
Open Scope Q_scope.
Open Scope string_scope.

(** ** Python helpers *)

(** [min(a, b)]: Python returns [b] exactly when [b < a], else [a]. *)
Definition py_min (a b : Q) : Q := if Qlt_le_dec b a then b else a.

(** [max(a, b)]: Python returns [b] exactly when [b > a], else [a]. *)
Definition py_max (a b : Q) : Q := if Qlt_le_dec a b then b else a.

(** ** Data model *)

(** [class Period(str, Enum)] of [profile_schema.py]. *)
Inductive Period : Type :=
| ANNUALLY
| MONTHLY.

Definition Period_eqb (p q : Period) : bool :=
  match p, q with
  | ANNUALLY, ANNUALLY | MONTHLY, MONTHLY => true
  | _, _ => false
  end.

(** The keyword arguments of [compute_tax_liability]. *)
Record TaxArgs : Type := mkTaxArgs {
  employment_income : Q;
  business_income : Q;
  other_income : Q;
  chargeable_gains : Q;
  losses_allowed : Q;
  capital_allowances : Q;
  national_housing_fund : Q;
  National_health_insurance_scheme : Q;
  pension_contribution : Q;
  mortgage_interest : Q;
  life_insurance_premium : Q;
  house_rent : Q;
  period : Period
}.

(** All keyword arguments left at their defaults ([0] and [ANNUALLY]). *)
Definition default_args : TaxArgs :=
  mkTaxArgs 0 0 0 0 0 0 0 0 0 0 0 0 ANNUALLY.

(** ** [compute_tax_liability], stage by stage *)

(** 1. TOTAL INCOME (Section 28), lines 36-46. *)
Definition total_income_of (a : TaxArgs) : Q :=
  let total_income :=
    employment_income a + business_income a + other_income a
    + chargeable_gains a - losses_allowed a - capital_allowances a in
  if Qlt_le_dec total_income 0 then 0 else total_income.

(** 2. rent relief, lines 49-52 (the same text is at lines 338-341). *)
Definition rent_relief_of (period : Period) (house_rent : Q) : Q :=
  if Period_eqb period MONTHLY
  then py_min (0.20 * house_rent) (500000 / 12)
  else py_min (0.20 * house_rent) 500000.

(** Eligible Deductions (Section 30), lines 54-61. *)
Definition eligible_deductions_of (a : TaxArgs) : Q :=
  national_housing_fund a + National_health_insurance_scheme a
  + pension_contribution a + mortgage_interest a + life_insurance_premium a
  + rent_relief_of (period a) (house_rent a).

(** 3. Chargeable Income, line 64. *)
Definition chargeable_income_of (a : TaxArgs) : Q :=
  py_max (total_income_of a - eligible_deductions_of a) 0.

(** 4. Apply Progressive Tax (Fourth Schedule), lines 67-108: the inline
    band walk on [chargeable_income]. *)
Definition compute_band_walk (chargeable_income : Q) : Q :=
  let tax := 0 in
  let remaining := chargeable_income in
  (* Band 1: First 800,000 at 0% *)
  let band := py_min remaining 800000 in
  let tax := tax + band * 0 in
  let remaining := remaining - band in
  if Qlt_le_dec 0 remaining then
  (* Band 2: Next 2,200,000 at 15% *)
  let band := py_min remaining 2200000 in
  let tax := tax + band * 0.15 in
  let remaining := remaining - band in
  if Qlt_le_dec 0 remaining then
  (* Band 3: Next 9,000,000 at 18% *)
  let band := py_min remaining 9000000 in
  let tax := tax + band * 0.18 in
  let remaining := remaining - band in
  if Qlt_le_dec 0 remaining then
  (* Band 4: Next 13,000,000 at 21% *)
  let band := py_min remaining 13000000 in
  let tax := tax + band * 0.21 in
  let remaining := remaining - band in
  if Qlt_le_dec 0 remaining then
  (* Band 5: Next 25,000,000 at 23% *)
  let band := py_min remaining 25000000 in
  let tax := tax + band * 0.23 in
  let remaining := remaining - band in
  if Qlt_le_dec 0 remaining then
  (* Band 6: Above 50,000,000 at 25% *)
  tax + remaining * 0.25
  else tax
  else tax
  else tax
  else tax
  else tax.

(** [compute_tax_liability(...)], lines 16-108. It returns the tax only; the
    period scaling by 12 is done by its callers. *)
Definition compute_tax_liability (a : TaxArgs) : Q :=
  let total_income := total_income_of a in
  let eligible_deductions := eligible_deductions_of a in
  let chargeable_income := py_max (total_income - eligible_deductions) 0 in
  compute_band_walk chargeable_income.

(** ** The [estimate_tax] endpoint *)

(** [class Forecast(BaseModel)] of [profile_schema.py], lines 63-90: every
    field is [Optional]; [None] is [None]. *)
Record Forecast : Type := mkForecast {
  f_employment_income : option Q;
  f_business_income : option Q;
  f_other_income : option Q;
  f_chargeable_gains : option Q;
  f_losses_allowed : option Q;
  f_capital_allowances : option Q;
  f_national_housing_fund : option Q;
  f_National_health_insurance_scheme : option Q;
  f_pension_contribution : option Q;
  f_voluntary_pension_contribution : option Q;
  f_mortgage_interest : option Q;
  f_life_insurance_premium : option Q;
  f_house_rent : option Q;
  f_period : option Period
}.

(** [x or 0] on an [Optional[float]]: [None] and [0.0] are falsy and give
    [0]; any other float is returned as it is. *)
Definition or_zero (x : option Q) : Q :=
  match x with
  | None => 0
  | Some v => if Qeq_dec v 0 then 0 else v
  end.

(** [forecast.period or Period.ANNUALLY] (an enum member is truthy). *)
Definition or_annually (p : option Period) : Period :=
  match p with
  | None => ANNUALLY
  | Some p => p
  end.

(** The returned dictionary of [estimate_tax], lines 399-404. *)
Record ForecastOut : Type := mkForecastOut {
  gross_tax_liability : Q;
  total_income : Q;
  total_deductions : Q;
  estimated_tax_due : Q
}.

(** [progressive_tax(amount)], the helper local to [estimate_tax],
    lines 352-387. *)
Definition progressive_tax (amount : Q) : Q :=
  let tax := 0 in
  let remaining := py_max amount 0 in
  let band := py_min remaining 800000 in
  let tax := tax + band * 0 in
  let remaining := remaining - band in
  if Qlt_le_dec 0 remaining then
  let band := py_min remaining 2200000 in
  let tax := tax + band * 0.15 in
  let remaining := remaining - band in
  if Qlt_le_dec 0 remaining then
  let band := py_min remaining 9000000 in
  let tax := tax + band * 0.18 in
  let remaining := remaining - band in
  if Qlt_le_dec 0 remaining then
  let band := py_min remaining 13000000 in
  let tax := tax + band * 0.21 in
  let remaining := remaining - band in
  if Qlt_le_dec 0 remaining then
  let band := py_min remaining 25000000 in
  let tax := tax + band * 0.23 in
  let remaining := remaining - band in
  if Qlt_le_dec 0 remaining then
  tax + remaining * 0.25
  else tax
  else tax
  else tax
  else tax
  else tax.

(** The arguments [estimate_tax] passes to [compute_tax_liability],
    lines 294-323. [voluntary_pension_contribution] is not read. *)
Definition forecast_args (f : Forecast) : TaxArgs :=
  mkTaxArgs
    (or_zero (f_employment_income f))
    (or_zero (f_business_income f))
    (or_zero (f_other_income f))
    (or_zero (f_chargeable_gains f))
    (or_zero (f_losses_allowed f))
    (or_zero (f_capital_allowances f))
    (or_zero (f_national_housing_fund f))
    (or_zero (f_National_health_insurance_scheme f))
    (or_zero (f_pension_contribution f))
    (or_zero (f_mortgage_interest f))
    (or_zero (f_life_insurance_premium f))
    (or_zero (f_house_rent f))
    (or_annually (f_period f)).

(** [estimate_tax(forecast)], lines 290-404. *)
Definition estimate_tax (f : Forecast) : ForecastOut :=
  let a := forecast_args f in
  let period := period a in
  let estimated_tax := compute_tax_liability a in
  (* 1. Total income *)
  let total_income :=
    employment_income a + business_income a + other_income a
    + chargeable_gains a - losses_allowed a - capital_allowances a in
  let total_income := if Qlt_le_dec total_income 0 then 0 else total_income in
  (* 2. Total deductions *)
  let rent_relief :=
    if Period_eqb period MONTHLY
    then py_min (0.20 * house_rent a) (500000 / 12)
    else py_min (0.20 * house_rent a) 500000 in
  let total_deduction :=
    national_housing_fund a + National_health_insurance_scheme a
    + pension_contribution a + mortgage_interest a
    + life_insurance_premium a + rent_relief in
  (* 4. tax on total_income with no eligible deductions *)
  let prior_estimated_tax := progressive_tax total_income in
  (* 5. period scaling *)
  let '(estimated_tax, prior_estimated_tax) :=
    if Period_eqb period MONTHLY
    then (estimated_tax * 12, prior_estimated_tax * 12)
    else (estimated_tax, prior_estimated_tax) in
  mkForecastOut prior_estimated_tax total_income total_deduction estimated_tax.

(** ** The band walk as the spec words it *)

(** Modelled on the spec's step 5 (a refinement target, not source code):
    walk [bands] in order; at each band the amount taxed is
    [min(remaining, band_width)], accumulated times the band's rate and
    subtracted from [remaining]; stop with the accumulated tax as soon as
    [remaining] reaches 0; after the finite bands, what remains is taxed at
    [top_rate]. *)
Fixpoint band_walk (bands : list (Q * Q)) (top_rate : Q)
    (remaining acc : Q) : Q :=
  match bands with
  | [] => acc + remaining * top_rate
  | (width, rate) :: rest =>
      let amount := py_min remaining width in
      let acc := acc + amount * rate in
      let remaining := remaining - amount in
      if Qeq_dec remaining 0 then acc
      else band_walk rest top_rate remaining acc
  end.

(** The band table of the spec's data model: five finite bands and the
    unbounded top band at 25%. *)
Definition tax_bands : list (Q * Q) :=
  [(800000, 0); (2200000, 0.15); (9000000, 0.18);
   (13000000, 0.21); (25000000, 0.23)].

Definition top_band_rate : Q := 0.25.

(** The spec's annual band walk on a chargeable amount. *)
Definition spec_tax (chargeable : Q) : Q :=
  band_walk tax_bands top_band_rate chargeable 0.

(** ** Single-field updates of the arguments *)

Inductive IncomeField : Type :=
| EmploymentIncome | BusinessIncome | OtherIncome | ChargeableGains.

Inductive DeductionField : Type :=
| NationalHousingFund | NationalHealthInsuranceScheme | PensionContribution
| MortgageInterest | LifeInsurancePremium | HouseRent.

Definition get_income (f : IncomeField) (a : TaxArgs) : Q :=
  match f with
  | EmploymentIncome => employment_income a
  | BusinessIncome => business_income a
  | OtherIncome => other_income a
  | ChargeableGains => chargeable_gains a
  end.

Definition set_income (f : IncomeField) (v : Q) (a : TaxArgs) : TaxArgs :=
  let 'mkTaxArgs ei bi oi cg la ca nhf nhis pc mi lip hr p := a in
  match f with
  | EmploymentIncome => mkTaxArgs v bi oi cg la ca nhf nhis pc mi lip hr p
  | BusinessIncome => mkTaxArgs ei v oi cg la ca nhf nhis pc mi lip hr p
  | OtherIncome => mkTaxArgs ei bi v cg la ca nhf nhis pc mi lip hr p
  | ChargeableGains => mkTaxArgs ei bi oi v la ca nhf nhis pc mi lip hr p
  end.

Definition get_deduction (g : DeductionField) (a : TaxArgs) : Q :=
  match g with
  | NationalHousingFund => national_housing_fund a
  | NationalHealthInsuranceScheme => National_health_insurance_scheme a
  | PensionContribution => pension_contribution a
  | MortgageInterest => mortgage_interest a
  | LifeInsurancePremium => life_insurance_premium a
  | HouseRent => house_rent a
  end.

Definition set_deduction (g : DeductionField) (v : Q) (a : TaxArgs) : TaxArgs :=
  let 'mkTaxArgs ei bi oi cg la ca nhf nhis pc mi lip hr p := a in
  match g with
  | NationalHousingFund => mkTaxArgs ei bi oi cg la ca v nhis pc mi lip hr p
  | NationalHealthInsuranceScheme => mkTaxArgs ei bi oi cg la ca nhf v pc mi lip hr p
  | PensionContribution => mkTaxArgs ei bi oi cg la ca nhf nhis v mi lip hr p
  | MortgageInterest => mkTaxArgs ei bi oi cg la ca nhf nhis pc v lip hr p
  | LifeInsurancePremium => mkTaxArgs ei bi oi cg la ca nhf nhis pc mi v hr p
  | HouseRent => mkTaxArgs ei bi oi cg la ca nhf nhis pc mi lip v p
  end.

(** ** Concrete inputs *)

(** The worked example of the spec: employment income 15,000,000, pension
    contribution 1,000,000, house rent 3,000,000, annual. *)
Definition example_15m : TaxArgs :=
  mkTaxArgs 15000000 0 0 0 0 0 0 0 1000000 0 0 3000000 ANNUALLY.

(** Employment income 1,000,000 with a negative housing-fund deduction. *)
Definition example_negative_nhf : TaxArgs :=
  mkTaxArgs 1000000 0 0 0 0 0 (-1000000) 0 0 0 0 0 ANNUALLY.

(** A [Forecast] body with every field omitted. *)
Definition empty_forecast : Forecast :=
  mkForecast None None None None None None None None None None None None None None.

(** A monthly [Forecast]: 1,000,000 employment income, 100,000 pension
    contribution, 300,000 house rent per month. *)
Definition monthly_forecast : Forecast :=
  mkForecast (Some 1000000) None None None None None None None (Some 100000)
    None None None (Some 300000) (Some MONTHLY).

(** One band of the code's walk: take [min(remaining, width)], add it times
    [rate] to [tax], subtract it from [remaining], and go on with [k] only
    while [remaining > 0]. The walks of [compute_tax_liability] and of
    [progressive_tax] are five such bands in a row. *)
Definition band_step (width rate : Q) (k : Q -> Q -> Q) (tax remaining : Q) : Q :=
  let band := py_min remaining width in
  let tax := tax + band * rate in
  let remaining := remaining - band in
  if Qlt_le_dec 0 remaining then k tax remaining else tax.

Definition code_walk (tax remaining : Q) : Q :=
  band_step 800000 0
    (band_step 2200000 0.15
      (band_step 9000000 0.18
        (band_step 13000000 0.21
          (band_step 25000000 0.23
            (fun tax remaining => tax + remaining * 0.25))))) tax remaining.

(** The period scaling the callers of [compute_tax_liability] apply. *)
Definition period_factor (p : Period) : Q :=
  if Period_eqb p MONTHLY then 12 else 1.

(** ** Python values and dictionaries *)







(** The outcome of an endpoint: its result, or the [HTTPException] it
    raises. *)
Inductive Outcome (A : Type) : Type :=
| Ok (x : A)
| HttpError (code : Z) (detail : string).
Arguments Ok {A} x.
Arguments HttpError {A} code detail.

(** ** [create_profile] (profile_router.py, lines 122-184) *)

(** [class ProfileBase(BaseModel)] of [profile_schema.py], lines 12-48. *)
Record ProfileBase : Type := mkProfileBase {
  p_name : option string;
  p_phone_no : option string;
  p_address : option string;
  p_employment_type : option string;
  p_date_of_birth : option string;
  p_state_of_residence : option string;
  p_state_tax_authority : option string;
  p_NIN : option string;
  p_employment_income : option Q;
  p_business_income : option Q;
  p_other_income : option Q;
  p_chargeable_gains : option Q;
  p_losses_allowed : option Q;
  p_capital_allowances : option Q;
  p_national_housing_fund : option Q;
  p_National_health_insurance_scheme : option Q;
  p_pension_contribution : option Q;
  p_voluntary_pension_contribution : option Q;
  p_mortgage_interest : option Q;
  p_life_insurance_premium : option Q;
  p_house_rent : option Q;
  p_period : option Period;
  p_estimated_tax : option Q
}.




(** The call [compute_tax_liability] with [tax_args] as keywords, line 159: the period is not
    passed, so it keeps its default [ANNUALLY]. *)
Definition create_tax_args (p : ProfileBase) : TaxArgs :=
  mkTaxArgs
    (or_zero (p_employment_income p)) (or_zero (p_business_income p))
    (or_zero (p_other_income p)) (or_zero (p_chargeable_gains p))
    (or_zero (p_losses_allowed p)) (or_zero (p_capital_allowances p))
    (or_zero (p_national_housing_fund p))
    (or_zero (p_National_health_insurance_scheme p))
    (or_zero (p_pension_contribution p)) (or_zero (p_mortgage_interest p))
    (or_zero (p_life_insurance_premium p)) (or_zero (p_house_rent p))
    ANNUALLY.

(** [payload.period == Period.MONTHLY]. *)
Definition opt_is_monthly (p : option Period) : bool :=
  match p with
  | Some MONTHLY => true
  | _ => false
  end.

(** [estimated_tax], lines 157-161 ([tax_args] is never empty). *)
Definition create_estimate (p : ProfileBase) : Q :=
  let estimated_tax := compute_tax_liability (create_tax_args p) in
  if opt_is_monthly (p_period p) then estimated_tax * 12 else estimated_tax.







(** ** [update_profile] (profile_router.py, lines 187-269) *)








(** [a] with its [period] keyword replaced. *)
Definition with_period (a : TaxArgs) (q : Period) : TaxArgs :=
  mkTaxArgs (employment_income a) (business_income a) (other_income a)
    (chargeable_gains a) (losses_allowed a) (capital_allowances a)
    (national_housing_fund a) (National_health_insurance_scheme a)
    (pension_contribution a) (mortgage_interest a) (life_insurance_premium a)
    (house_rent a) q.

(** A monthly profile payload: 1,000,000 employment income and 300,000 house
    rent. *)
Definition monthly_payload : ProfileBase :=
  mkProfileBase (Some "Ada") None None None None None None None
    (Some 1000000) None None None None None None None None None None None
    (Some 300000) (Some MONTHLY) None.



(** ** Document files (core/storage.py, doc_management/doc_router.py) *)

Definition file_url_prefix : string := "/api/documents/files/".

(** [LocalStorageManager.get_public_url], storage.py lines 81-93. *)
Definition get_public_url (relative_path : string) : string :=
  file_url_prefix ++ relative_path.

(** [s[n:]]. *)
Fixpoint drop_str (n : nat) (s : string) : string :=
  match n, s with
  | O, _ => s
  | S n', String _ s' => drop_str n' s'
  | S _, EmptyString => EmptyString
  end.

(** [str.replace] with an empty [old]: [new] goes before every character and
    at the end. *)
Fixpoint insert_between (new s : string) : string :=
  match s with
  | EmptyString => new
  | String c s' => new ++ String c (insert_between new s')
  end.

(** [str.replace] with a non-empty [old]: scan from the left, replace each
    occurrence and continue after it. Every step consumes a character, so
    [length s] steps suffice. *)
Fixpoint replace_go (fuel : nat) (old new s : string) : string :=
  match fuel with
  | O => s
  | S f =>
      match s with
      | EmptyString => EmptyString
      | String c s' =>
          if String.prefix old s
          then new ++ replace_go f old new (drop_str (String.length old) s)
          else String c (replace_go f old new s')
      end
  end.

(** [s.replace(old, new)]. *)
Definition py_str_replace (s old new : string) : string :=
  if String.eqb old "" then insert_between new s
  else replace_go (String.length s) old new s.

(** [sub in s]. *)
Fixpoint py_contains (sub s : string) : bool :=
  String.prefix sub s ||
  match s with
  | EmptyString => false
  | String _ s' => py_contains sub s'
  end.

(** The relative path handed to [delete_file] for a stored [file_url]
    (doc_router.py lines 130-134 and 182-187), or [None] when nothing is
    deleted: the URL is falsy or does not start with the prefix. *)
Definition old_file_relative_path (file_url : option string) : option string :=
  match file_url with
  | None => None
  | Some u =>
      if String.eqb u "" then None
      else if String.prefix file_url_prefix u
      then Some (py_str_replace u file_url_prefix "")
      else None
  end.

(** A row of the [documents] table (the columns the endpoints read). *)
Record Document := mkDocument {
  doc_id : nat;
  doc_user_email : string;
  doc_file_url : option string
}.

(** The database rows and the relative paths of the stored files. *)
Record DocStore := mkDocStore {
  documents : list Document;
  files : list string
}.

(** [query(Document).filter(Document.id == doc_id).first()]. *)
Fixpoint find_doc (ds : list Document) (id : nat) : option Document :=
  match ds with
  | [] => None
  | d :: ds' => if Nat.eqb (doc_id d) id then Some d else find_doc ds' id
  end.

(** [db.delete(doc)]: the row with that id goes. *)
Definition remove_doc (ds : list Document) (id : nat) : list Document :=
  filter (fun d => negb (Nat.eqb (doc_id d) id)) ds.

(** [LocalStorageManager.delete_file]: the file, if stored, goes. *)
Definition delete_file (fs : list string) (relative_path : string) : list string :=
  filter (fun f => negb (String.eqb f relative_path)) fs.

(** [delete_document], doc_router.py lines 172-197. *)
Definition delete_document (st : DocStore) (id : nat) (current_email : string)
    : Outcome DocStore :=
  match find_doc (documents st) id with
  | None => HttpError 404 "Document not found"
  | Some doc =>
      if negb (String.eqb (doc_user_email doc) current_email)
      then HttpError 404 "Document not found"
      else
        let fs :=
          match old_file_relative_path (doc_file_url doc) with
          | Some relative_path => delete_file (files st) relative_path
          | None => files st
          end in
        Ok (mkDocStore (remove_doc (documents st) id) fs)
  end.

(** A store with one document of Ada's and its file. *)
Definition ada_file : string := "ada@example.com/4f2a_receipt.pdf".

Definition ada_store : DocStore :=
  mkDocStore [mkDocument 7 "ada@example.com" (Some (get_public_url ada_file))]
    [ada_file; "bob@example.com/9c1e_payslip.pdf"].

(** ** Statute ingestion and blog files (tax_article/tax_agent.py) *)

(** Strings are read as Latin-1 text: one [ascii] is one code point below
    256. *)

(** Decimal digits of a [Decimal.uint]. *)
Fixpoint uint_str (u : Decimal.uint) : string :=
  match u with
  | Decimal.Nil => ""
  | Decimal.D0 u => String "0" (uint_str u)
  | Decimal.D1 u => String "1" (uint_str u)
  | Decimal.D2 u => String "2" (uint_str u)
  | Decimal.D3 u => String "3" (uint_str u)
  | Decimal.D4 u => String "4" (uint_str u)
  | Decimal.D5 u => String "5" (uint_str u)
  | Decimal.D6 u => String "6" (uint_str u)
  | Decimal.D7 u => String "7" (uint_str u)
  | Decimal.D8 u => String "8" (uint_str u)
  | Decimal.D9 u => String "9" (uint_str u)
  end.

(** [str(n)] for a Python [int]. *)
Definition string_of_Z (z : Z) : string :=
  match Z.to_int z with
  | Decimal.Pos u => uint_str u
  | Decimal.Neg u => String "-" (uint_str u)
  end.

(** [str.isspace] on one character: the whitespace code points below 256. *)
Definition is_py_space (c : ascii) : bool :=
  let n := nat_of_ascii c in
  ((9 <=? n) && (n <=? 13))%nat || ((28 <=? n) && (n <=? 32))%nat
  || (n =? 133)%nat || (n =? 160)%nat.

(** [text.split()], with the word being read in [cur]. *)
Fixpoint py_split_go (s cur : string) : list string :=
  match s with
  | EmptyString => if String.eqb cur "" then [] else [cur]
  | String c s' =>
      if is_py_space c
      then (if String.eqb cur "" then py_split_go s' ""
            else cur :: py_split_go s' "")
      else py_split_go s' (cur ++ String c "")
  end.

Definition py_split (s : string) : list string := py_split_go s "".

(** [sep.join(l)]. *)
Fixpoint py_join (sep : string) (l : list string) : string :=
  match l with
  | [] => ""
  | [x] => x
  | x :: l' => x ++ sep ++ py_join sep l'
  end.

(** [l[i:j]] with Python's bounds: a negative bound counts from the end,
    and bounds are clipped to the list. *)
Definition py_slice {A} (l : list A) (i j : Z) : list A :=
  let n := Z.of_nat (List.length l) in
  let norm k := if Z.ltb k 0 then Z.max 0 (k + n)%Z else Z.min k n in
  let i' := norm i in
  let j' := norm j in
  firstn (Z.to_nat (j' - i')%Z) (skipn (Z.to_nat i') l).

(** An element of [self.ingested_texts]. *)
Record Entry := mkEntry {
  e_id : string;
  e_text : string;
  e_section : option string;
  e_law : string;
  e_year : option Z
}.

(** [TaxAgent.ingest_text], lines 63-77: [store] is [self.ingested_texts]. *)
Definition ingest_text (store : list Entry) (text : string) (doc_id : option string)
    (section : option string) (law : string) (year : option Z) : list Entry :=
  let default := law ++ "-" ++ string_of_Z (Z.of_nat (List.length store)) in
  let doc_id :=
    match doc_id with
    | Some d => if String.eqb d "" then default else d
    | None => default
    end in
  store ++ [mkEntry doc_id text section law year].

(** The [while] loop of [TaxAgent.ingest_large_text], lines 84-92, run for
    at most [fuel] tests of its condition; [None] when it is still running
    after them. *)
Fixpoint ingest_loop (fuel : nat) (words : list string) (law : string)
    (chunk_size overlap i idx : Z) (store : list Entry) (ids : list string)
    : option (list Entry * list string) :=
  match fuel with
  | O => None
  | S f =>
      if Z.ltb i (Z.of_nat (List.length words)) then
        let chunk := py_join " " (py_slice words i (i + chunk_size)%Z) in
        let doc_id := law ++ "-" ++ string_of_Z idx in
        let store := ingest_text store chunk (Some doc_id)
                       (Some ("chunk-" ++ string_of_Z idx)) law None in
        ingest_loop f words law chunk_size overlap
          (i + (chunk_size - overlap))%Z (idx + 1)%Z store (ids ++ [doc_id])%list
      else Some (store, ids)
  end.

(** [TaxAgent.ingest_large_text], lines 79-94: the new store and the
    returned ids. *)
Definition ingest_large_text (fuel : nat) (store : list Entry) (text law : string)
    (chunk_size overlap : Z) : option (list Entry * list string) :=
  ingest_loop fuel (py_split text) law chunk_size overlap 0 0 store [].

(** The chunk count that [upload_tax_document] (tax_router.py lines
    100-116) reports: [len(ids)] of a call with the defaults 800 and 150. *)
Definition upload_chunks_ingested (fuel : nat) (store : list Entry) (text prefix : string)
    : option Z :=
  match ingest_large_text fuel store text prefix 800 150 with
  | Some (_, ids) => Some (Z.of_nat (List.length ids))
  | None => None
  end.

(** [str.lower] on Latin-1: A-Z and the letters 192-222 but 215. *)
Definition py_lower_char (c : ascii) : ascii :=
  let n := nat_of_ascii c in
  if ((65 <=? n) && (n <=? 90))%nat || ((192 <=? n) && (n <=? 222) && negb (n =? 215))%nat
  then ascii_of_nat (n + 32) else c.

Fixpoint map_str (f : ascii -> ascii) (s : string) : string :=
  match s with
  | EmptyString => EmptyString
  | String c s' => String (f c) (map_str f s')
  end.

Definition py_lower (s : string) : string := map_str py_lower_char s.

(** Membership in the class [[a-z0-9-]]. *)
Definition slug_char (c : ascii) : bool :=
  let n := nat_of_ascii c in
  ((97 <=? n) && (n <=? 122))%nat || ((48 <=? n) && (n <=? 57))%nat || (n =? 45)%nat.

(** [re.sub(r"[^a-z0-9-]", "-", s)]: each character outside the class, on
    its own, becomes ["-"]. *)
Definition sub_non_slug (s : string) : string :=
  map_str (fun c => if slug_char c then c else "-"%char) s.

(** [sanitize_filename], lines 36-37. *)
Definition sanitize_filename (text : string) : string :=
  sub_non_slug (py_lower text).




(** The entry the loop appends for the chunk starting at word [i], with
    number [idx]. *)
Definition chunk_entry (words : list string) (law : string) (chunk_size i idx : Z)
    : Entry :=
  mkEntry (law ++ "-" ++ string_of_Z idx)
    (py_join " " (py_slice words i (i + chunk_size)%Z))
    (Some ("chunk-" ++ string_of_Z idx)) law None.

(** The entries of [m] rounds from word [i] and number [idx], [step] words
    apart. *)
Fixpoint chunk_entries (words : list string) (law : string) (chunk_size step : Z)
    (m : nat) (i idx : Z) : list Entry :=
  match m with
  | O => []
  | S m' => chunk_entry words law chunk_size i idx
            :: chunk_entries words law chunk_size step m' (i + step)%Z (idx + 1)%Z
  end.

(** The number of rounds for [n] words, [step] words apart: [ceil(n / step)]. *)
Definition chunk_count (n step : Z) : nat := Z.to_nat ((n + step - 1) / step)%Z.

(** All characters of [s] satisfy [p]. *)
Fixpoint str_forall (p : ascii -> bool) (s : string) : bool :=
  match s with
  | EmptyString => true
  | String c s' => p c && str_forall p s'
  end.

(** Five words, and a text without any. *)
Definition five_words : string := "a b c d e".
Definition blank_text : string := "  " ++ String (ascii_of_nat 10) (String (ascii_of_nat 9) " ").

(** ** Extractive summary (tax_article/tax_research.py, lines 147-160) *)

(** The class [[.!?]]. *)
Definition is_sent_end (c : ascii) : bool :=
  Ascii.eqb c "." || Ascii.eqb c "!" || Ascii.eqb c "?".

(** [re.split(r"(?<=[.!?])\s+", s)]: a whitespace run right after [.], [!]
    or [?] ends a piece; [last_end] says whether the character before is
    one of them, [skipping] whether such a run is being consumed. *)
Fixpoint sent_split_go (s cur : string) (last_end skipping : bool) : list string :=
  match s with
  | EmptyString => [cur]
  | String c s' =>
      if is_py_space c then
        if skipping then sent_split_go s' cur false true
        else if last_end then cur :: sent_split_go s' "" false true
        else sent_split_go s' (cur ++ String c "") false false
      else sent_split_go s' (cur ++ String c "") (is_sent_end c) false
  end.

Definition sent_split (s : string) : list string := sent_split_go s "" false false.

Fixpoint lstrip_list (l : list ascii) : list ascii :=
  match l with
  | [] => []
  | c :: l' => if is_py_space c then lstrip_list l' else l
  end.

(** [s.strip()]. *)
Definition py_strip (s : string) : string :=
  string_of_list_ascii
    (rev (lstrip_list (rev (lstrip_list (list_ascii_of_string s))))).

(** The [for] loop of lines 151-157: [picked] so far. *)
Fixpoint extractive_pick (sentences : list string) (max_sentences : Z)
    (picked : list string) : list string :=
  match sentences with
  | [] => picked
  | s :: rest =>
      let s := py_strip s in
      if Nat.ltb (String.length s) 40 then extractive_pick rest max_sentences picked
      else
        let picked := (picked ++ [s])%list in
        if Z.leb max_sentences (Z.of_nat (List.length picked)) then picked
        else extractive_pick rest max_sentences picked
  end.

(** [TaxResearchAgent._extractive_summary]. *)
Definition extractive_summary (texts : list string) (max_sentences : Z) : string :=
  let joined := py_join " " texts in
  let sentences := sent_split joined in
  let picked := extractive_pick sentences max_sentences [] in
  match picked with
  | [] => substring 0 800 joined
  | _ => py_join " " picked
  end.

(** Two texts with one long sentence each, and a line of short ones. *)
Definition statute_texts : list string :=
  ["Every employer shall deduct tax from the emoluments of each employee.";
   "Relief applies! The rate for the band above 800,000 naira is fifteen percent."].

Definition short_texts : list string := ["Tax. Pay it. Now!"].

(** ** Basic facts *)

Lemma py_min_le_l (a b : Q) : py_min a b <= a.
Proof. unfold py_min; destruct (Qlt_le_dec b a); lra. Qed.

Lemma py_min_le_r (a b : Q) : py_min a b <= b.
Proof. unfold py_min; destruct (Qlt_le_dec b a); lra. Qed.

Lemma py_min_Qmin (a b : Q) : py_min a b == Qmin a b.
Proof.
  unfold py_min; destruct (Qlt_le_dec b a).
  - rewrite Q.min_r; lra.
  - rewrite Q.min_l; lra.
Qed.

Lemma py_max_ge_r (a b : Q) : b <= py_max a b.
Proof. unfold py_max; destruct (Qlt_le_dec a b); lra. Qed.

Lemma py_max_id (a : Q) : 0 <= a -> py_max a 0 = a.
Proof. intros H; unfold py_max; destruct (Qlt_le_dec a 0); [lra | reflexivity]. Qed.

Lemma py_max_mono (a b c : Q) : a <= b -> py_max a c <= py_max b c.
Proof.
  unfold py_max; intros H.
  destruct (Qlt_le_dec a c), (Qlt_le_dec b c); lra.
Qed.

Lemma chargeable_income_nonneg (a : TaxArgs) : 0 <= chargeable_income_of a.
Proof. apply py_max_ge_r. Qed.

Lemma compute_tax_liability_walk (a : TaxArgs) :
  compute_tax_liability a = compute_band_walk (chargeable_income_of a).
Proof. unfold compute_tax_liability, chargeable_income_of; cbv zeta. reflexivity. Qed.

Lemma compute_band_walk_code_walk (c : Q) : compute_band_walk c = code_walk 0 c.
Proof. unfold compute_band_walk, code_walk, band_step; cbv zeta. reflexivity. Qed.

Lemma progressive_tax_code_walk (x : Q) :
  progressive_tax x = code_walk 0 (py_max x 0).
Proof. unfold progressive_tax, code_walk, band_step; cbv zeta. reflexivity. Qed.

(** One band of the code's walk is one step of the spec's walk, whatever
    the amount: what remains after a band is never negative, so the code's
    [remaining <= 0] and the spec's [remaining == 0] agree. *)
Lemma band_step_walk (w r top : Q) (rest : list (Q * Q)) (k : Q -> Q -> Q)
    (tax x : Q) :
  (forall t y, 0 < y -> k t y == band_walk rest top y t) ->
  band_step w r k tax x == band_walk ((w, r) :: rest) top x tax.
Proof.
  intros Hk. unfold band_step. cbn [band_walk].
  pose proof (py_min_le_l x w) as Hm.
  destruct (Qlt_le_dec 0 (x - py_min x w)) as [Hpos | Hnp];
  destruct (Qeq_dec (x - py_min x w) 0) as [Hz | Hnz].
  - exfalso; lra.
  - apply Hk; exact Hpos.
  - reflexivity.
  - exfalso; apply Hnz; lra.
Qed.

Lemma code_walk_spec (c : Q) : code_walk 0 c == spec_tax c.
Proof.
  unfold code_walk, spec_tax, tax_bands, top_band_rate.
  apply band_step_walk; intros t1 y1 _.
  apply band_step_walk; intros t2 y2 _.
  apply band_step_walk; intros t3 y3 _.
  apply band_step_walk; intros t4 y4 _.
  apply band_step_walk; intros t5 y5 _.
  reflexivity.
Qed.

(** The inline walk of [compute_tax_liability] is the spec's band walk. *)
Lemma compute_band_walk_spec (c : Q) : compute_band_walk c == spec_tax c.
Proof. rewrite compute_band_walk_code_walk. apply code_walk_spec. Qed.

(** ** The band walk is additive in its accumulator, non-negative and
    monotone, on any table of non-negative widths and rates *)

Definition band_ok (b : Q * Q) : Prop := 0 <= fst b /\ 0 <= snd b.

Lemma tax_bands_ok : Forall band_ok tax_bands.
Proof. unfold tax_bands, band_ok; repeat constructor; simpl; lra. Qed.

Lemma band_walk_acc (bs : list (Q * Q)) (top x acc : Q) :
  band_walk bs top x acc == acc + band_walk bs top x 0.
Proof.
  revert x acc.
  induction bs as [|[w r] rest IH]; intros x acc; cbn [band_walk].
  - lra.
  - destruct (Qeq_dec (x - py_min x w) 0).
    + lra.
    + pose proof (IH (x - py_min x w) (acc + py_min x w * r)).
      pose proof (IH (x - py_min x w) (0 + py_min x w * r)).
      lra.
Qed.

Lemma py_min_nonneg (a b : Q) : 0 <= a -> 0 <= b -> 0 <= py_min a b.
Proof. unfold py_min; destruct (Qlt_le_dec b a); lra. Qed.

Lemma band_walk_nonneg (bs : list (Q * Q)) (top x : Q) :
  Forall band_ok bs -> 0 <= top -> 0 <= x -> 0 <= band_walk bs top x 0.
Proof.
  intros Hbs Htop. revert x.
  induction Hbs as [|[w r] rest [Hw Hr] Hrest IH]; intros x Hx; cbn [band_walk].
  - pose proof (Qmult_le_0_compat x top Hx Htop). lra.
  - simpl in Hw, Hr.
    pose proof (py_min_nonneg x w Hx Hw) as Hm.
    pose proof (py_min_le_l x w) as Hmx.
    pose proof (Qmult_le_0_compat _ _ Hm Hr).
    destruct (Qeq_dec (x - py_min x w) 0).
    + lra.
    + rewrite band_walk_acc.
      assert (0 <= x - py_min x w) as Hx' by lra.
      specialize (IH _ Hx'). lra.
Qed.

Lemma band_walk_mono (bs : list (Q * Q)) (top x y : Q) :
  Forall band_ok bs -> 0 <= top -> 0 <= x -> x <= y ->
  band_walk bs top x 0 <= band_walk bs top y 0.
Proof.
  intros Hbs Htop. revert x y.
  induction Hbs as [|[w r] rest [Hw Hr] Hrest IH]; intros x y Hx Hxy;
    cbn [band_walk].
  - pose proof (Qmult_le_compat_r x y top Hxy Htop). lra.
  - simpl in Hw, Hr. unfold py_min.
    destruct (Qlt_le_dec w x) as [Hwx | Hxw];
    destruct (Qlt_le_dec w y) as [Hwy | Hyw]; cbv beta iota;
    try (exfalso; lra).
    + (* both amounts above the band *)
      destruct (Qeq_dec (x - w) 0); [exfalso; lra |].
      destruct (Qeq_dec (y - w) 0); [exfalso; lra |].
      rewrite (band_walk_acc rest top (x - w)), (band_walk_acc rest top (y - w)).
      assert (0 <= x - w) as H1 by lra. assert (x - w <= y - w) as H2 by lra.
      specialize (IH _ _ H1 H2). lra.
    + (* [x] ends in this band, [y] goes on *)
      destruct (Qeq_dec (x - x) 0) as [_ | Hne]; [| exfalso; lra].
      destruct (Qeq_dec (y - w) 0); [exfalso; lra |].
      rewrite (band_walk_acc rest top (y - w)).
      assert (0 <= y - w) as H1 by lra.
      pose proof (band_walk_nonneg rest top (y - w) Hrest Htop H1).
      pose proof (Qmult_le_compat_r x w r Hxw Hr). lra.
    + (* both amounts end in this band *)
      destruct (Qeq_dec (x - x) 0) as [_ | Hne]; [| exfalso; lra].
      destruct (Qeq_dec (y - y) 0) as [_ | Hne]; [| exfalso; lra].
      pose proof (Qmult_le_compat_r x y r Hxy Hr). lra.
Qed.

Lemma spec_tax_mono (x y : Q) : 0 <= x -> x <= y -> spec_tax x <= spec_tax y.
Proof.
  intros Hx Hxy. apply band_walk_mono; auto using tax_bands_ok.
  unfold top_band_rate; lra.
Qed.

Lemma spec_tax_nonneg (x : Q) : 0 <= x -> 0 <= spec_tax x.
Proof.
  intros Hx. apply band_walk_nonneg; auto using tax_bands_ok.
  unfold top_band_rate; lra.
Qed.

Lemma compute_tax_liability_spec (a : TaxArgs) :
  compute_tax_liability a == spec_tax (chargeable_income_of a).
Proof. rewrite compute_tax_liability_walk. apply compute_band_walk_spec. Qed.

Example example_15m_tax : compute_tax_liability example_15m == 2265000.
Proof. vm_compute. reflexivity. Qed.

Example example_15m_walk : spec_tax (chargeable_income_of example_15m) == 2265000.
Proof. vm_compute. reflexivity. Qed.

(** ** Helper facts on the walk and on the stages *)

Lemma band_walk_past (w r top x acc : Q) (rest : list (Q * Q)) :
  w < x ->
  band_walk ((w, r) :: rest) top x acc == band_walk rest top (x - w) (acc + w * r).
Proof.
  intros H. cbn [band_walk]. unfold py_min.
  destruct (Qlt_le_dec w x); [cbv beta iota | exfalso; lra].
  destruct (Qeq_dec (x - w) 0); [exfalso; lra | reflexivity].
Qed.

Lemma band_walk_within (w r top x acc : Q) (rest : list (Q * Q)) :
  x <= w -> band_walk ((w, r) :: rest) top x acc == acc + x * r.
Proof.
  intros H. cbn [band_walk]. unfold py_min.
  destruct (Qlt_le_dec w x); [exfalso; lra | cbv beta iota].
  destruct (Qeq_dec (x - x) 0); [reflexivity | exfalso; lra].
Qed.

Lemma spec_tax_above_top (c : Q) :
  50000000 <= c -> spec_tax c == 10430000 + (c - 50000000) * 0.25.
Proof.
  intros H. unfold spec_tax, tax_bands, top_band_rate.
  rewrite band_walk_past by lra.
  rewrite band_walk_past by lra.
  rewrite band_walk_past by lra.
  rewrite band_walk_past by lra.
  destruct (Qlt_le_dec 25000000 (c - 800000 - 2200000 - 9000000 - 13000000)).
  - rewrite band_walk_past by lra. cbn [band_walk]. lra.
  - rewrite band_walk_within by lra. lra.
Qed.

Lemma spec_tax_nonpos (c : Q) : c <= 0 -> spec_tax c == 0.
Proof.
  intros H. unfold spec_tax, tax_bands.
  rewrite band_walk_within by lra. lra.
Qed.

Lemma progressive_tax_spec (x : Q) : progressive_tax x == spec_tax (py_max x 0).
Proof. rewrite progressive_tax_code_walk. apply code_walk_spec. Qed.

Lemma total_income_nonneg (a : TaxArgs) : 0 <= total_income_of a.
Proof. unfold total_income_of. destruct (Qlt_le_dec _ _); lra. Qed.

Lemma estimate_tax_parts (f : Forecast) :
  let a := forecast_args f in
  gross_tax_liability (estimate_tax f)
    == period_factor (period a) * progressive_tax (total_income_of a) /\
  total_income (estimate_tax f) = total_income_of a /\
  total_deductions (estimate_tax f) = eligible_deductions_of a /\
  estimated_tax_due (estimate_tax f)
    == period_factor (period a) * compute_tax_liability a.
Proof.
  intros a. unfold estimate_tax, period_factor, eligible_deductions_of,
    rent_relief_of, total_income_of. cbv zeta. fold a.
  destruct (Period_eqb (period a) MONTHLY); cbn [gross_tax_liability
    total_income total_deductions estimated_tax_due];
  (split; [lra | split; [reflexivity | split; [reflexivity | lra]]]).
Qed.

Lemma set_income_deductions (f : IncomeField) (v : Q) (a : TaxArgs) :
  eligible_deductions_of (set_income f v a) = eligible_deductions_of a.
Proof. destruct a, f; reflexivity. Qed.

Lemma set_deduction_total_income (g : DeductionField) (v : Q) (a : TaxArgs) :
  total_income_of (set_deduction g v a) = total_income_of a.
Proof.
  destruct a, g; unfold total_income_of;
  cbn [set_deduction employment_income business_income other_income
       chargeable_gains losses_allowed capital_allowances];
  reflexivity.
Qed.

Lemma set_income_total_income (f : IncomeField) (v : Q) (a : TaxArgs) :
  get_income f a <= v -> total_income_of a <= total_income_of (set_income f v a).
Proof.
  destruct a, f; simpl; intros H; unfold total_income_of; simpl;
  destruct (Qlt_le_dec _ 0), (Qlt_le_dec _ 0); lra.
Qed.

Lemma rent_relief_mono (p : Period) (h h' : Q) :
  h <= h' -> rent_relief_of p h <= rent_relief_of p h'.
Proof.
  intros H. unfold rent_relief_of, py_min.
  destruct (Period_eqb p MONTHLY);
  destruct (Qlt_le_dec _ (0.20 * h)), (Qlt_le_dec _ (0.20 * h')); lra.
Qed.

Lemma set_deduction_deductions (g : DeductionField) (v : Q) (a : TaxArgs) :
  get_deduction g a <= v ->
  eligible_deductions_of a <= eligible_deductions_of (set_deduction g v a).
Proof.
  destruct a, g; simpl; intros H; unfold eligible_deductions_of; simpl;
  try lra.
  pose proof (rent_relief_mono period0 house_rent0 v H). lra.
Qed.

Lemma set_deduction_shift (g : DeductionField) (d : Q) (a : TaxArgs) :
  g <> HouseRent ->
  eligible_deductions_of (set_deduction g (get_deduction g a + d) a)
  == eligible_deductions_of a + d.
Proof.
  destruct a, g; simpl; intros H; unfold eligible_deductions_of; simpl;
  try lra. exfalso; apply H; reflexivity.
Qed.

Lemma chargeable_income_mono (a b : TaxArgs) :
  total_income_of a <= total_income_of b ->
  eligible_deductions_of b <= eligible_deductions_of a ->
  chargeable_income_of a <= chargeable_income_of b.
Proof.
  intros H1 H2. unfold chargeable_income_of. apply py_max_mono. lra.
Qed.

Lemma tax_mono_of_chargeable (a b : TaxArgs) :
  chargeable_income_of a <= chargeable_income_of b ->
  compute_tax_liability a <= compute_tax_liability b.
Proof.
  intros H.
  pose proof (compute_tax_liability_spec a).
  pose proof (compute_tax_liability_spec b).
  pose proof (spec_tax_mono _ _ (chargeable_income_nonneg a) H).
  lra.
Qed.

Lemma forecast_period (f : Forecast) :
  period (forecast_args f) = or_annually (f_period f).
Proof. reflexivity. Qed.

Lemma period_factor_match (p : Period) :
  period_factor p = match p with MONTHLY => 12 | ANNUALLY => 1 end.
Proof. destruct p; reflexivity. Qed.

(** ** Claims *)

(** C1: for every input (its chargeable income is never negative), the tax
    of [compute_tax_liability] is the spec's ordered walk over the bands
    800,000 at 0%, 2,200,000 at 15%, 9,000,000 at 18%, 13,000,000 at 21%,
    25,000,000 at 23%, which takes [min(remaining, width)] at each band and
    stops as soon as [remaining] reaches 0; the chargeable income above
    50,000,000 is taxed entirely at 25%. *)
Theorem compute_tax_liability_is_band_walk (a : TaxArgs) :
  0 <= chargeable_income_of a /\
  compute_tax_liability a == spec_tax (chargeable_income_of a) /\
  (50000000 <= chargeable_income_of a ->
   compute_tax_liability a
   == 10430000 + (chargeable_income_of a - 50000000) * 0.25).
Proof.
  split; [apply chargeable_income_nonneg |].
  split; [apply compute_tax_liability_spec |].
  intros H. rewrite compute_tax_liability_spec. apply spec_tax_above_top; exact H.
Qed.

(** C3: rent relief is [min(0.20 * house_rent, cap)] with cap 500,000 for an
    annual period and 500,000/12 for a monthly one, on the house rent as
    given; annual rent 10,000,000 gives exactly 500,000 and monthly rent
    1,000,000 gives exactly 500,000/12. The copy of the computation in
    [estimate_tax] is the same. *)
Theorem rent_relief_capped :
  (forall hr, rent_relief_of ANNUALLY hr == Qmin (0.20 * hr) 500000) /\
  (forall hr, rent_relief_of MONTHLY hr == Qmin (0.20 * hr) (500000 / 12)) /\
  rent_relief_of ANNUALLY 10000000 == 500000 /\
  rent_relief_of MONTHLY 1000000 == 500000 / 12 /\
  (forall f, let a := forecast_args f in
   total_deductions (estimate_tax f)
   = national_housing_fund a + National_health_insurance_scheme a
     + pension_contribution a + mortgage_interest a + life_insurance_premium a
     + rent_relief_of (period a) (house_rent a)).
Proof.
  split; [intros hr; apply py_min_Qmin |].
  split; [intros hr; apply py_min_Qmin |].
  split; [vm_compute; reflexivity |].
  split; [vm_compute; reflexivity |].
  intros f a. apply (estimate_tax_parts f).
Qed.

(** C4: on the worked example (employment income 15,000,000, pension
    contribution 1,000,000, house rent 3,000,000, annual) the rent relief is
    500,000, the eligible deductions 1,500,000, the chargeable income
    13,500,000 and the tax 2,265,000. *)
Theorem example_15m_result :
  rent_relief_of (period example_15m) (house_rent example_15m) == 500000 /\
  eligible_deductions_of example_15m == 1500000 /\
  chargeable_income_of example_15m == 13500000 /\
  compute_tax_liability example_15m == 2265000.
Proof. vm_compute. repeat split; reflexivity. Qed.

(** C10: the inline walk of [compute_tax_liability] and the [progressive_tax]
    helper of [estimate_tax] give the same tax on every amount (not only the
    non-negative ones). *)
Theorem inline_walk_eq_progressive_tax (x : Q) :
  compute_band_walk x == progressive_tax x.
Proof.
  rewrite compute_band_walk_spec, progressive_tax_spec.
  destruct (Qlt_le_dec x 0) as [Hneg | Hx].
  - unfold py_max at 1. destruct (Qlt_le_dec x 0); [| exfalso; lra].
    rewrite (spec_tax_nonpos x) by lra. rewrite spec_tax_nonpos by lra.
    reflexivity.
  - rewrite py_max_id by exact Hx. reflexivity.
Qed.

(** C2: for a monthly forecast, the tax due and the gross tax are the spec's
    annual band walk run directly on the monthly figures (the chargeable
    income uses the monthly rent-relief cap 500,000/12), multiplied by 12
    after the walk. *)
Theorem estimate_tax_monthly_scaling (f : Forecast) :
  f_period f = Some MONTHLY ->
  rent_relief_of (period (forecast_args f)) (house_rent (forecast_args f))
    = py_min (0.20 * house_rent (forecast_args f)) (500000 / 12) /\
  estimated_tax_due (estimate_tax f)
    == 12 * spec_tax (chargeable_income_of (forecast_args f)) /\
  gross_tax_liability (estimate_tax f)
    == 12 * spec_tax (total_income_of (forecast_args f)).
Proof.
  intros Hp.
  assert (period (forecast_args f) = MONTHLY) as HM
    by (rewrite forecast_period, Hp; reflexivity).
  destruct (estimate_tax_parts f) as (Hg & _ & _ & He).
  rewrite HM in Hg, He. unfold period_factor in Hg, He. simpl in Hg, He.
  split; [unfold rent_relief_of; rewrite HM; reflexivity |].
  rewrite compute_tax_liability_spec in He.
  rewrite progressive_tax_spec, py_max_id in Hg by apply total_income_nonneg.
  split; assumption.
Qed.

Lemma estimate_tax_monthly_scaling_witness :
  f_period monthly_forecast = Some MONTHLY /\
  (rent_relief_of (period (forecast_args monthly_forecast))
     (house_rent (forecast_args monthly_forecast))
    = py_min (0.20 * house_rent (forecast_args monthly_forecast)) (500000 / 12) /\
  estimated_tax_due (estimate_tax monthly_forecast)
    == 12 * spec_tax (chargeable_income_of (forecast_args monthly_forecast)) /\
  gross_tax_liability (estimate_tax monthly_forecast)
    == 12 * spec_tax (total_income_of (forecast_args monthly_forecast))).
Proof.
  split; [reflexivity |].
  apply (estimate_tax_monthly_scaling monthly_forecast). reflexivity.
Defined.

(** C5: raising one income field, the others fixed, never lowers the tax
    of [compute_tax_liability]; raising one deduction field never raises
    it. This holds for every input, not only non-negative ones. *)
Theorem compute_tax_liability_monotone :
  (forall (a : TaxArgs) (f : IncomeField) (v : Q),
     get_income f a <= v ->
     compute_tax_liability a <= compute_tax_liability (set_income f v a)) /\
  (forall (a : TaxArgs) (g : DeductionField) (v : Q),
     get_deduction g a <= v ->
     compute_tax_liability (set_deduction g v a) <= compute_tax_liability a).
Proof.
  split.
  - intros a f v H. apply tax_mono_of_chargeable, chargeable_income_mono.
    + apply set_income_total_income; exact H.
    + rewrite set_income_deductions. apply Qle_refl.
  - intros a g v H. apply tax_mono_of_chargeable, chargeable_income_mono.
    + rewrite set_deduction_total_income. apply Qle_refl.
    + apply set_deduction_deductions; exact H.
Qed.

(** C6: the forecast's gross tax is the spec's band walk run on the total
    income (incomes and gains less losses and capital allowances, clamped at
    0) with no deduction subtracted, multiplied by 12 exactly when the
    period is monthly, as the estimated tax due is. *)
Theorem forecast_gross_without_deductions (f : Forecast) :
  total_income (estimate_tax f) = total_income_of (forecast_args f) /\
  gross_tax_liability (estimate_tax f)
    == match period (forecast_args f) with MONTHLY => 12 | ANNUALLY => 1 end
       * spec_tax (total_income_of (forecast_args f)) /\
  estimated_tax_due (estimate_tax f)
    == match period (forecast_args f) with MONTHLY => 12 | ANNUALLY => 1 end
       * compute_tax_liability (forecast_args f).
Proof.
  destruct (estimate_tax_parts f) as (Hg & Ht & _ & He).
  rewrite period_factor_match in Hg, He.
  rewrite progressive_tax_spec, py_max_id in Hg by apply total_income_nonneg.
  split; [exact Ht | split; assumption].
Qed.

(** C7: the forecast's total deductions are exactly the housing fund,
    health insurance, pension, mortgage interest and life insurance amounts
    plus the capped rent relief, unscaled by the period; no other field of
    the request (such as the voluntary pension contribution) changes it. *)
Theorem forecast_total_deductions (f : Forecast) :
  total_deductions (estimate_tax f)
    = national_housing_fund (forecast_args f)
      + National_health_insurance_scheme (forecast_args f)
      + pension_contribution (forecast_args f)
      + mortgage_interest (forecast_args f)
      + life_insurance_premium (forecast_args f)
      + rent_relief_of (period (forecast_args f)) (house_rent (forecast_args f)) /\
  (forall g : Forecast,
     f_national_housing_fund g = f_national_housing_fund f ->
     f_National_health_insurance_scheme g = f_National_health_insurance_scheme f ->
     f_pension_contribution g = f_pension_contribution f ->
     f_mortgage_interest g = f_mortgage_interest f ->
     f_life_insurance_premium g = f_life_insurance_premium f ->
     f_house_rent g = f_house_rent f ->
     f_period g = f_period f ->
     total_deductions (estimate_tax g) = total_deductions (estimate_tax f)).
Proof.
  destruct (estimate_tax_parts f) as (_ & _ & Hd & _).
  split; [exact Hd |].
  intros g H1 H2 H3 H4 H5 H6 H7.
  destruct (estimate_tax_parts g) as (_ & _ & Hd' & _).
  rewrite Hd, Hd'. unfold eligible_deductions_of, forecast_args. simpl.
  rewrite H1, H2, H3, H4, H5, H6, H7. reflexivity.
Qed.

(** C8: [compute_tax_liability] is a total function returning a
    non-negative tax for every input; the all-zero input gives chargeable
    income 0 and tax 0, and so does an empty forecast request. *)
Theorem compute_total_all_zero :
  chargeable_income_of default_args == 0 /\
  compute_tax_liability default_args == 0 /\
  estimated_tax_due (estimate_tax empty_forecast) == 0 /\
  (forall a : TaxArgs, 0 <= compute_tax_liability a).
Proof.
  split; [vm_compute; reflexivity |].
  split; [vm_compute; reflexivity |].
  split; [vm_compute; reflexivity |].
  intros a. rewrite compute_tax_liability_spec.
  apply spec_tax_nonneg, chargeable_income_nonneg.
Qed.

(** C9: negative amounts are neither rejected nor clamped: a deduction
    field other than the house rent enters the eligible deductions with its
    sign, the income fields enter the total income sum with theirs (only the
    sum is clamped at 0), and the tax is the band walk on
    [max(total_income - eligible_deductions, 0)]; a housing-fund deduction
    of -1,000,000 next to 1,000,000 of employment income gives eligible
    deductions -1,000,000 and tax 180,000. *)
Theorem negative_amounts_pass_through :
  (forall (a : TaxArgs) (g : DeductionField) (d : Q),
     g <> HouseRent ->
     eligible_deductions_of (set_deduction g (get_deduction g a + d) a)
     == eligible_deductions_of a + d) /\
  (forall a : TaxArgs,
     0 <= employment_income a + business_income a + other_income a
          + chargeable_gains a - losses_allowed a - capital_allowances a ->
     total_income_of a
     == employment_income a + business_income a + other_income a
        + chargeable_gains a - losses_allowed a - capital_allowances a) /\
  (forall a : TaxArgs,
     compute_tax_liability a
     == spec_tax (py_max (total_income_of a - eligible_deductions_of a) 0)) /\
  eligible_deductions_of example_negative_nhf == -1000000 /\
  compute_tax_liability example_negative_nhf == 180000.
Proof.
  split; [intros a g d H; apply set_deduction_shift; exact H |].
  split.
  { intros a H. unfold total_income_of.
    destruct (Qlt_le_dec _ 0); [exfalso; lra | apply Qeq_refl]. }
  split.
  { intros a. rewrite compute_tax_liability_spec.
    unfold chargeable_income_of. apply Qeq_refl. }
  split; vm_compute; reflexivity.
Qed.

(** ** Dictionaries *)









Lemma rent_relief_monthly_le_annual (h : Q) :
  rent_relief_of MONTHLY h <= rent_relief_of ANNUALLY h.
Proof.
  unfold rent_relief_of, py_min; simpl.
  assert (Hc : 500000 / 12 == 125000 # 3) by reflexivity.
  destruct (Qlt_le_dec (500000 / 12) (0.20 * h)), (Qlt_le_dec 500000 (0.20 * h));
    rewrite ?Hc in *; lra.
Qed.

(** ** Profile endpoints *)


(** X1. [create_profile] calls [compute_tax_liability] without the period, so
    the rent-relief cap is always the annual 500,000: the stored estimate
    of a monthly payload is 12 times the tax with the annual cap, which is
    never more than 12 times the tax with the monthly cap 500,000/12 (the
    figure [estimate_tax] and [update_profile] use), and can be less. *)
Theorem create_profile_monthly_annual_cap :
  (forall p : ProfileBase,
     period (create_tax_args p) = ANNUALLY /\
     (opt_is_monthly (p_period p) = true ->
      create_estimate p == compute_tax_liability (create_tax_args p) * 12 /\
      create_estimate p
        <= compute_tax_liability (with_period (create_tax_args p) MONTHLY) * 12)) /\
  (exists p : ProfileBase, opt_is_monthly (p_period p) = true /\
     create_estimate p
       < compute_tax_liability (with_period (create_tax_args p) MONTHLY) * 12).
Proof.
  split.
  - intros p. split; [reflexivity |]. intros Hm.
    unfold create_estimate. cbv zeta. rewrite Hm.
    split; [apply Qeq_refl |].
    apply Qmult_le_r; [lra |].
    apply tax_mono_of_chargeable, chargeable_income_mono.
    + apply Qle_refl.
    + unfold eligible_deductions_of. cbn [period house_rent with_period create_tax_args
        national_housing_fund National_health_insurance_scheme pension_contribution
        mortgage_interest life_insurance_premium].
      pose proof (rent_relief_monthly_le_annual (or_zero (p_house_rent p))). lra.
  - exists monthly_payload. split; [reflexivity |].
    vm_compute. reflexivity.
Qed.






(** ** Document files *)

Lemma prefix_app (s t : string) : String.prefix s (s ++ t) = true.
Proof.
  induction s as [|a s IH]; [destruct t; reflexivity |]. simpl.
  destruct (ascii_dec a a); [exact IH | contradiction].
Qed.

Lemma drop_str_app (s t : string) : drop_str (String.length s) (s ++ t) = t.
Proof. induction s as [|a s IH]; simpl; [reflexivity | exact IH]. Qed.

Lemma replace_go_no_occ (fuel : nat) (old new s : string) :
  py_contains old s = false -> replace_go fuel old new s = s.
Proof.
  revert fuel. induction s as [|c s IH]; intros fuel H; destruct fuel; simpl;
    try reflexivity.
  simpl in H. apply orb_false_iff in H as [Hp Hs].
  rewrite Hp, (IH fuel Hs). reflexivity.
Qed.

Lemma replace_go_app (f : nat) (old new rel : string) :
  old <> EmptyString -> py_contains old rel = false ->
  replace_go (S f) old new (old ++ rel) = new ++ rel.
Proof.
  intros Hne Hc. destruct old as [|c o]; [contradiction |].
  change (String c o ++ rel) with (String c (o ++ rel)).
  cbn [replace_go]. change (String c (o ++ rel)) with (String c o ++ rel).
  rewrite prefix_app, drop_str_app, replace_go_no_occ by exact Hc. reflexivity.
Qed.


(** X5. Round trip of the stored file URL: for a relative path in which the
    prefix [/api/documents/files/] does not occur, the path that
    [update_document] and [delete_document] recover from
    [get_public_url(relative_path)] and hand to [delete_file] is that
    relative path. *)
Theorem old_file_path_round_trip (rel : string) :
  py_contains file_url_prefix rel = false ->
  old_file_relative_path (Some (get_public_url rel)) = Some rel.
Proof.
  intros Hc. unfold old_file_relative_path, get_public_url, py_str_replace.
  assert (Hu : String.eqb (file_url_prefix ++ rel) "" = false) by reflexivity.
  assert (Ho : String.eqb file_url_prefix "" = false) by reflexivity.
  assert (Hl : exists f, String.length (file_url_prefix ++ rel) = S f)
    by (eexists; reflexivity).
  destruct Hl as [f Hl].
  rewrite Hu, prefix_app, Ho, Hl, replace_go_app by (try exact Hc; discriminate).
  reflexivity.
Qed.

Lemma old_file_path_round_trip_witness :
  py_contains file_url_prefix ada_file = false /\
  old_file_relative_path (Some (get_public_url ada_file)) = Some ada_file.
Proof.
  split; [vm_compute; reflexivity |].
  apply old_file_path_round_trip. vm_compute. reflexivity.
Defined.

(** X6. [delete_document] on a missing id, or on a document of another
    user, answers 404 "Document not found" and deletes nothing. *)
Theorem delete_document_not_owner (st : DocStore) (id : nat) (email : string) :
  (forall doc, find_doc (documents st) id = Some doc -> doc_user_email doc <> email) ->
  delete_document st id email = HttpError 404 "Document not found".
Proof.
  intros H. unfold delete_document.
  destruct (find_doc (documents st) id) as [doc |] eqn:E; [| reflexivity].
  specialize (H doc eq_refl).
  apply String.eqb_neq in H. rewrite H. reflexivity.
Qed.

Lemma delete_document_not_owner_witness :
  (forall doc, find_doc (documents ada_store) 7 = Some doc ->
     doc_user_email doc <> "bob@example.com") /\
  delete_document ada_store 7 "bob@example.com" = HttpError 404 "Document not found".
Proof.
  assert (H : forall doc, find_doc (documents ada_store) 7 = Some doc ->
            doc_user_email doc <> "bob@example.com").
  { intros doc Hd. simpl in Hd. injection Hd as <-. simpl. discriminate. }
  split; [exact H | apply delete_document_not_owner; exact H].
Defined.



(** ** Statute ingestion *)

Section Ingest.
Open Scope Z_scope.
Open Scope list_scope.

Lemma chunk_count_pos (x step : Z) :
  0 < step -> 0 < x -> chunk_count x step = S (chunk_count (x - step) step).
Proof.
  intros Hs Hx. unfold chunk_count.
  replace (x + step - 1) with ((x - step + step - 1) + 1 * step) by ring.
  rewrite Z.div_add by lia.
  assert (0 <= (x - step + step - 1) / step) by (apply Z.div_pos; lia).
  rewrite Z.add_1_r, Z2Nat.inj_succ by lia. reflexivity.
Qed.

Lemma chunk_count_nonpos (x step : Z) :
  0 < step -> x <= 0 -> chunk_count x step = 0%nat.
Proof.
  intros Hs Hx. unfold chunk_count.
  assert ((x + step - 1) / step < 1) by (apply Z.div_lt_upper_bound; lia).
  destruct ((x + step - 1) / step) eqn:E; try reflexivity; lia.
Qed.

Lemma ingest_text_some (store : list Entry) (text law d : string) (c : ascii)
    (d' : string) (section : option string) (year : option Z) :
  ingest_text store text (Some (d ++ String c d')%string) section law year
  = store ++ [mkEntry (d ++ String c d')%string text section law year].
Proof.
  unfold ingest_text. destruct d; reflexivity.
Qed.

(** The loop runs [chunk_count] rounds and appends the chunk entries. *)
Lemma ingest_loop_run (words : list string) (law : string) (cs ov : Z) :
  0 < cs - ov ->
  forall fuel i idx store ids,
    (chunk_count (Z.of_nat (List.length words) - i) (cs - ov) < fuel)%nat ->
    ingest_loop fuel words law cs ov i idx store ids
    = Some (store ++ chunk_entries words law cs (cs - ov)
                       (chunk_count (Z.of_nat (List.length words) - i) (cs - ov)) i idx,
            ids ++ map e_id (chunk_entries words law cs (cs - ov)
                       (chunk_count (Z.of_nat (List.length words) - i) (cs - ov)) i idx)).
Proof.
  intros Hs. induction fuel as [|f IH]; intros i idx store ids Hf; [lia |].
  cbn [ingest_loop].
  destruct (Z.ltb_spec i (Z.of_nat (List.length words))) as [Hi | Hi].
  - rewrite (chunk_count_pos _ _ Hs) by lia. rewrite (chunk_count_pos _ _ Hs) in Hf by lia.
    rewrite (ingest_text_some store _ law law "-"%char (string_of_Z idx)).
    rewrite IH by (replace (Z.of_nat (List.length words) - (i + (cs - ov)))
                     with (Z.of_nat (List.length words) - i - (cs - ov)) by ring; lia).
    replace (Z.of_nat (List.length words) - (i + (cs - ov)))
      with (Z.of_nat (List.length words) - i - (cs - ov)) by ring.
    cbn [chunk_entries map]. rewrite <- !app_assoc. reflexivity.
  - rewrite (chunk_count_nonpos _ _ Hs) by lia. cbn [chunk_entries map].
    rewrite !app_nil_r. reflexivity.
Qed.

Lemma nth_error_chunk_entries (words : list string) (law : string) (cs step : Z) :
  forall m i idx j, (j < m)%nat ->
  nth_error (chunk_entries words law cs step m i idx) j
  = Some (chunk_entry words law cs (i + Z.of_nat j * step) (idx + Z.of_nat j)).
Proof.
  induction m as [|m IH]; intros i idx j Hj; [lia |].
  destruct j as [|j]; cbn [chunk_entries nth_error].
  - rewrite !Z.add_0_r. reflexivity.
  - rewrite IH by lia. f_equal. f_equal; lia.
Qed.

Lemma chunk_entries_length (words : list string) (law : string) (cs step : Z) :
  forall m i idx, List.length (chunk_entries words law cs step m i idx) = m.
Proof.
  induction m as [|m IH]; intros; simpl; [reflexivity | rewrite IH; reflexivity].
Qed.

Lemma nth_error_chunk_entries_lt (words : list string) (law : string) (cs step : Z) :
  forall m i idx j e,
  nth_error (chunk_entries words law cs step m i idx) j = Some e -> (j < m)%nat.
Proof.
  intros m i idx j e H.
  assert (Hn : nth_error (chunk_entries words law cs step m i idx) j <> None) by congruence.
  apply nth_error_Some in Hn. rewrite chunk_entries_length in Hn. exact Hn.
Qed.

(** [ingest_large_text] with a positive step, given enough fuel. *)
Lemma ingest_large_text_run (fuel : nat) (store : list Entry) (text law : string)
    (cs ov : Z) :
  0 < cs - ov ->
  (chunk_count (Z.of_nat (List.length (py_split text))) (cs - ov) < fuel)%nat ->
  ingest_large_text fuel store text law cs ov
  = Some (store ++ chunk_entries (py_split text) law cs (cs - ov)
                     (chunk_count (Z.of_nat (List.length (py_split text))) (cs - ov)) 0 0,
          map e_id (chunk_entries (py_split text) law cs (cs - ov)
                     (chunk_count (Z.of_nat (List.length (py_split text))) (cs - ov)) 0 0)).
Proof.
  intros Hs Hf. unfold ingest_large_text.
  rewrite ingest_loop_run by (rewrite ?Z.sub_0_r; assumption).
  rewrite Z.sub_0_r. reflexivity.
Qed.

Lemma ingest_loop_stuck (words : list string) (law : string) (cs ov : Z) :
  cs - ov <= 0 ->
  forall fuel i idx store ids, i < Z.of_nat (List.length words) ->
  ingest_loop fuel words law cs ov i idx store ids = None.
Proof.
  intros Hs. induction fuel as [|f IH]; intros i idx store ids Hi; [reflexivity |].
  cbn [ingest_loop]. destruct (Z.ltb_spec i (Z.of_nat (List.length words))); [| lia].
  apply IH. lia.
Qed.

End Ingest.

Section IngestFacts.
Open Scope Z_scope.
Open Scope list_scope.

(** X8. [ingest_large_text] with [chunk_size - overlap > 0] ends after
    [ceil(n / (chunk_size - overlap))] chunks for a text of [n] words: it
    appends one entry per chunk after the existing store, returns their
    ids in order, and chunk [j] has id [law-j], section [chunk-j], and the
    text of words [j*step] to [j*step + chunk_size] joined by spaces. *)
Theorem ingest_large_text_chunks (fuel : nat) (store : list Entry) (text law : string)
    (chunk_size overlap : Z) :
  0 < chunk_size - overlap ->
  (chunk_count (Z.of_nat (List.length (py_split text))) (chunk_size - overlap) < fuel)%nat ->
  exists entries ids,
    ingest_large_text fuel store text law chunk_size overlap = Some (store ++ entries, ids) /\
    map e_id entries = ids /\
    Z.of_nat (List.length ids)
      = (Z.of_nat (List.length (py_split text)) + (chunk_size - overlap) - 1)
          / (chunk_size - overlap) /\
    forall j e, nth_error entries j = Some e ->
      e_id e = (law ++ "-" ++ string_of_Z (Z.of_nat j))%string /\
      e_section e = Some ("chunk-" ++ string_of_Z (Z.of_nat j))%string /\
      e_law e = law /\
      e_text e = py_join " " (py_slice (py_split text)
                   (Z.of_nat j * (chunk_size - overlap))
                   (Z.of_nat j * (chunk_size - overlap) + chunk_size)).
Proof.
  intros Hs Hf.
  rewrite (ingest_large_text_run fuel store text law chunk_size overlap Hs Hf).
  eexists; eexists; split; [reflexivity |]. split; [reflexivity |]. split.
  - rewrite length_map, chunk_entries_length. unfold chunk_count.
    apply Z2Nat.id. apply Z.div_pos; lia.
  - intros j e He.
    pose proof (nth_error_chunk_entries_lt _ _ _ _ _ _ _ _ _ He) as Hj.
    rewrite nth_error_chunk_entries in He by exact Hj.
    injection He as <-. cbn [chunk_entry e_id e_section e_law e_text].
    rewrite ?Z.add_0_l. repeat split.
Qed.

Lemma ingest_large_text_chunks_witness :
  (0 < 2 - 1 /\
   (chunk_count (Z.of_nat (List.length (py_split five_words))) (2 - 1) < 7)%nat) /\
  exists entries ids,
    ingest_large_text 7 [] five_words "PITA" 2 1 = Some ([] ++ entries, ids) /\
    map e_id entries = ids /\
    Z.of_nat (List.length ids)
      = (Z.of_nat (List.length (py_split five_words)) + (2 - 1) - 1) / (2 - 1) /\
    forall j e, nth_error entries j = Some e ->
      e_id e = ("PITA" ++ "-" ++ string_of_Z (Z.of_nat j))%string /\
      e_section e = Some ("chunk-" ++ string_of_Z (Z.of_nat j))%string /\
      e_law e = "PITA" /\
      e_text e = py_join " " (py_slice (py_split five_words)
                   (Z.of_nat j * (2 - 1)) (Z.of_nat j * (2 - 1) + 2)).
Proof.
  split; [split; vm_compute; (reflexivity || lia) |].
  apply ingest_large_text_chunks; vm_compute; (reflexivity || lia).
Defined.

(** X9. A text with no words (empty or only whitespace) ingests nothing
    and returns no ids, whatever [chunk_size] and [overlap] are. *)
Theorem ingest_large_text_no_words (fuel : nat) (store : list Entry) (text law : string)
    (chunk_size overlap : Z) :
  py_split text = [] -> (0 < fuel)%nat ->
  ingest_large_text fuel store text law chunk_size overlap = Some (store, []).
Proof.
  intros Hw Hf. destruct fuel as [|f]; [lia |].
  unfold ingest_large_text. rewrite Hw. reflexivity.
Qed.

Lemma ingest_large_text_no_words_witness :
  (py_split blank_text = [] /\ (0 < 1)%nat) /\
  ingest_large_text 1 [] blank_text "PITA" 150 800 = Some ([], []).
Proof.
  split; [split; [vm_compute; (reflexivity || lia) | lia] |].
  apply ingest_large_text_no_words; [vm_compute; (reflexivity || lia) | lia].
Defined.

(** X10. When [overlap >= chunk_size] and the text has a word, the loop of
    [ingest_large_text] never ends: its index never moves forward, so no
    number of rounds finishes it. *)
Theorem ingest_large_text_diverges (fuel : nat) (store : list Entry) (text law : string)
    (chunk_size overlap : Z) :
  py_split text <> [] -> chunk_size - overlap <= 0 ->
  ingest_large_text fuel store text law chunk_size overlap = None.
Proof.
  intros Hw Hs. unfold ingest_large_text. apply ingest_loop_stuck; [exact Hs |].
  destruct (py_split text); [contradiction | simpl; lia].
Qed.

Lemma ingest_large_text_diverges_witness :
  (py_split five_words <> [] /\ 150 - 150 <= 0) /\
  ingest_large_text 1000 [] five_words "PITA" 150 150 = None.
Proof.
  split; [split; [vm_compute; discriminate | lia] |].
  apply ingest_large_text_diverges; [vm_compute; discriminate | lia].
Defined.

Lemma py_slice_nth {A} (l : list A) (a b k : Z) (w : A) :
  0 <= a <= k -> k < b -> nth_error l (Z.to_nat k) = Some w ->
  nth_error (py_slice l a b) (Z.to_nat (k - a)) = Some w.
Proof.
  intros Ha Hb Hk. unfold py_slice.
  assert (Hkl : (Z.to_nat k < List.length l)%nat)
    by (apply nth_error_Some; congruence).
  destruct (Z.ltb_spec a 0); [lia |].
  destruct (Z.ltb_spec b 0); [lia |].
  rewrite nth_error_firstn.
  destruct (Nat.ltb_spec (Z.to_nat (k - a))
              (Z.to_nat (Z.min b (Z.of_nat (List.length l))
                         - Z.min a (Z.of_nat (List.length l))))); [| lia].
  rewrite nth_error_skipn.
  replace (Z.to_nat (Z.min a (Z.of_nat (List.length l))) + Z.to_nat (k - a))%nat
    with (Z.to_nat k) by lia.
  exact Hk.
Qed.

(** X11. With [0 <= overlap < chunk_size] (the defaults 800 and 150
    included), every word of the text lands in some ingested chunk. *)
Theorem ingest_large_text_covers (fuel : nat) (store : list Entry) (text law : string)
    (chunk_size overlap : Z) :
  0 <= overlap < chunk_size ->
  (chunk_count (Z.of_nat (List.length (py_split text))) (chunk_size - overlap) < fuel)%nat ->
  exists entries ids,
    ingest_large_text fuel store text law chunk_size overlap = Some (store ++ entries, ids) /\
    forall k w, nth_error (py_split text) k = Some w ->
      exists j e chunk, nth_error entries j = Some e /\
        e_text e = py_join " " chunk /\ In w chunk.
Proof.
  intros Ho Hf. set (step := chunk_size - overlap).
  assert (Hs : 0 < step) by (unfold step; lia).
  rewrite (ingest_large_text_run fuel store text law chunk_size overlap Hs Hf).
  eexists; eexists; split; [reflexivity |].
  intros k w Hk. set (n := Z.of_nat (List.length (py_split text))).
  assert (Hkn : (k < List.length (py_split text))%nat)
    by (apply nth_error_Some; congruence).
  set (jz := Z.of_nat k / step).
  assert (Hj0 : 0 <= jz) by (apply Z.div_pos; lia).
  assert (Hj1 : step * jz <= Z.of_nat k) by (apply Z.mul_div_le; lia).
  assert (Hj2 : Z.of_nat k < step * jz + step).
  { pose proof (Z.mod_pos_bound (Z.of_nat k) step Hs).
    pose proof (Z.div_mod (Z.of_nat k) step ltac:(lia)). unfold jz. lia. }
  assert (Hjc : (Z.to_nat jz < chunk_count n step)%nat).
  { unfold chunk_count.
    assert (jz + 1 <= (n + step - 1) / step).
    { apply Z.div_le_lower_bound; [exact Hs |]. unfold n. lia. }
    lia. }
  exists (Z.to_nat jz).
  eexists. exists (py_slice (py_split text) (Z.of_nat (Z.to_nat jz) * step)
                     (Z.of_nat (Z.to_nat jz) * step + chunk_size)).
  split; [rewrite nth_error_chunk_entries by exact Hjc; reflexivity |].
  split; [cbn [e_text chunk_entry]; rewrite ?Z.add_0_l; reflexivity |].
  apply nth_error_In with (n := Z.to_nat (Z.of_nat k - Z.of_nat (Z.to_nat jz) * step)).
  apply py_slice_nth; [lia | unfold step in *; lia |].
  rewrite Nat2Z.id. exact Hk.
Qed.

Lemma ingest_large_text_covers_witness :
  (0 <= 1 < 2 /\
   (chunk_count (Z.of_nat (List.length (py_split five_words))) (2 - 1) < 7)%nat) /\
  exists entries ids,
    ingest_large_text 7 [] five_words "PITA" 2 1 = Some ([] ++ entries, ids) /\
    forall k w, nth_error (py_split five_words) k = Some w ->
      exists j e chunk, nth_error entries j = Some e /\
        e_text e = py_join " " chunk /\ In w chunk.
Proof.
  split; [split; [lia | vm_compute; (reflexivity || lia)] |].
  apply ingest_large_text_covers; [lia | vm_compute; (reflexivity || lia)].
Defined.

(** X12. [upload_tax_document] calls [ingest_large_text] with the defaults
    800 and 150, so it always finishes, and reports [ceil(n / 650)] chunks
    for a text of [n] words. *)
Theorem upload_chunks_ingested_count (fuel : nat) (store : list Entry) (text prefix : string) :
  (chunk_count (Z.of_nat (List.length (py_split text))) 650 < fuel)%nat ->
  upload_chunks_ingested fuel store text prefix
  = Some ((Z.of_nat (List.length (py_split text)) + 649) / 650).
Proof.
  intros Hf. unfold upload_chunks_ingested.
  rewrite (ingest_large_text_run fuel store text prefix 800 150) by (try exact Hf; lia).
  rewrite length_map, chunk_entries_length. unfold chunk_count.
  rewrite Z2Nat.id by (apply Z.div_pos; lia).
  replace (Z.of_nat (List.length (py_split text)) + (800 - 150) - 1)
    with (Z.of_nat (List.length (py_split text)) + 649) by ring.
  reflexivity.
Qed.

Lemma upload_chunks_ingested_count_witness :
  (chunk_count (Z.of_nat (List.length (py_split five_words))) 650 < 2)%nat /\
  upload_chunks_ingested 2 [] five_words "pita_2011"
  = Some ((Z.of_nat (List.length (py_split five_words)) + 649) / 650).
Proof.
  split; [vm_compute; (reflexivity || lia) |].
  apply upload_chunks_ingested_count. vm_compute. reflexivity.
Defined.

End IngestFacts.

(** ** Blog file names *)

Lemma map_str_map_str (f g : ascii -> ascii) (s : string) :
  map_str f (map_str g s) = map_str (fun c => f (g c)) s.
Proof. induction s as [|c s IH]; simpl; [reflexivity | rewrite IH; reflexivity]. Qed.

Lemma map_str_length (f : ascii -> ascii) (s : string) :
  String.length (map_str f s) = String.length s.
Proof. induction s as [|c s IH]; simpl; [reflexivity | rewrite IH; reflexivity]. Qed.

Lemma map_str_forall (f : ascii -> ascii) (p : ascii -> bool) (s : string) :
  (forall c, p (f c) = true) -> str_forall p (map_str f s) = true.
Proof.
  intros H. induction s as [|c s IH]; simpl; [reflexivity | rewrite H, IH; reflexivity].
Qed.


Lemma lower_slug (c : ascii) : slug_char c = true -> py_lower_char c = c.
Proof.
  destruct c as [[] [] [] [] [] [] [] []]; vm_compute; intros H;
    first [reflexivity | discriminate H].
Qed.


Lemma sanitize_filename_map (s : string) :
  sanitize_filename s
  = map_str (fun c => if slug_char (py_lower_char c) then py_lower_char c else "-"%char) s.
Proof. unfold sanitize_filename, sub_non_slug, py_lower. apply map_str_map_str. Qed.

Lemma slug_or_dash (c : ascii) :
  slug_char (if slug_char c then c else "-"%char) = true.
Proof. destruct (slug_char c) eqn:E; [exact E | reflexivity]. Qed.



(** X13. [sanitize_filename] keeps the length of a Latin-1 title, leaves
    only the characters [a-z], [0-9] and [-], and is idempotent. *)
Theorem sanitize_filename_slug (title : string) :
  String.length (sanitize_filename title) = String.length title /\
  str_forall slug_char (sanitize_filename title) = true /\
  sanitize_filename (sanitize_filename title) = sanitize_filename title.
Proof.
  rewrite !sanitize_filename_map. split; [| split].
  - apply map_str_length.
  - apply map_str_forall. intros c. apply slug_or_dash.
  - induction title as [|c s IH]; simpl; [reflexivity |]. rewrite IH. f_equal.
    pose proof (slug_or_dash (py_lower_char c)) as Hd.
    rewrite (lower_slug _ Hd), Hd. reflexivity.
Qed.



(** ** Extractive summary *)

Lemma substring_0_length (m : nat) (s : string) :
  (String.length (substring 0 m s) <= m)%nat.
Proof.
  revert m. induction s as [|c s IH]; intros [|m]; simpl; try lia.
  specialize (IH m). lia.
Qed.

Lemma extractive_pick_spec (sentences : list string) (m : Z) :
  forall picked,
    (List.length picked < Z.to_nat (Z.max 1 m))%nat ->
    exists new, extractive_pick sentences m picked = (picked ++ new)%list /\
      (List.length (picked ++ new) <= Z.to_nat (Z.max 1 m))%nat /\
      Forall (fun s => (40 <= String.length s)%nat /\
                       exists s0, In s0 sentences /\ py_strip s0 = s) new.
Proof.
  induction sentences as [|s0 rest IH]; intros picked Hp; simpl.
  - exists []. rewrite app_nil_r. split; [reflexivity | split; [lia | constructor]].
  - destruct (Nat.ltb_spec (String.length (py_strip s0)) 40) as [Hs | Hs].
    + destruct (IH picked Hp) as (new & Heq & Hl & Hf).
      exists new. split; [exact Heq | split; [exact Hl |]].
      eapply Forall_impl; [| exact Hf].
      intros x [Hx (y & Hy & Hyx)]. split; [exact Hx | exists y; split; [right; exact Hy | exact Hyx]].
    + assert (Hnew : (40 <= String.length (py_strip s0))%nat /\
                     exists y, In y (s0 :: rest) /\ py_strip y = py_strip s0)
        by (split; [exact Hs | exists s0; split; [left |]; reflexivity]).
      rewrite length_app. cbn [List.length].
      destruct (Z.leb_spec m (Z.of_nat (List.length picked + 1))) as [Hm | Hm].
      * exists [py_strip s0]. split; [reflexivity |].
        rewrite length_app. cbn [List.length]. split; [lia | constructor; [exact Hnew | constructor]].
      * destruct (IH (picked ++ [py_strip s0])%list) as (new & Heq & Hl & Hf).
        { rewrite length_app. cbn [List.length]. lia. }
        exists (py_strip s0 :: new). rewrite Heq, <- app_assoc.
        split; [reflexivity | split; [rewrite <- app_assoc in Hl; exact Hl |]].
        constructor; [exact Hnew |].
        eapply Forall_impl; [| exact Hf].
        intros x [Hx (y & Hy & Hyx)].
        split; [exact Hx | exists y; split; [right; exact Hy | exact Hyx]].
Qed.

(** X15. [_extractive_summary] keeps at most [max(1, max_sentences)]
    sentences (one even when [max_sentences <= 0]), each a stripped piece
    of the joined texts of at least 40 characters, joined by spaces; when
    no piece is that long it returns the first 800 characters of the
    joined texts instead. *)
Theorem extractive_summary_bounds (texts : list string) (max_sentences : Z) :
  exists picked,
    (List.length picked <= Z.to_nat (Z.max 1 max_sentences))%nat /\
    Forall (fun s => (40 <= String.length s)%nat /\
                     exists s0, In s0 (sent_split (py_join " " texts)) /\ py_strip s0 = s)
      picked /\
    ((picked = [] /\
      extractive_summary texts max_sentences = substring 0 800 (py_join " " texts) /\
      (String.length (extractive_summary texts max_sentences) <= 800)%nat) \/
     (picked <> [] /\ extractive_summary texts max_sentences = py_join " " picked)).
Proof.
  destruct (extractive_pick_spec (sent_split (py_join " " texts)) max_sentences [])
    as (new & Heq & Hl & Hf); [simpl; lia |].
  exists new. split; [exact Hl | split; [exact Hf |]].
  unfold extractive_summary. cbv zeta. rewrite Heq. cbn [app].
  destruct new as [|x new'].
  - left. split; [reflexivity | split; [reflexivity | apply substring_0_length]].
  - right. split; [discriminate | reflexivity].
Qed.
